(** * webxr.h: the declarations of the WebXR wrapper and their properties

    The repository's only source file is a header: enumerations, three
    plain-data structs, five function-pointer typedefs and twelve [extern]
    functions.  The development embeds the header declaration by declaration
    (section 1), gives the declarations the meaning the C and C++ languages
    give them (enumerator values, struct layout, name lookup, default
    arguments; sections 2 to 5), and states the properties of the interface
    over that embedding. *)

From Stdlib Require Import ZArith List String Bool Lia Permutation.
Import ListNotations.
Open Scope string_scope.
Open Scope Z_scope.

(* ================================================================== *)
(** * 1. Declarations, as the header writes them *)
(* ================================================================== *)

(** Types as they are spelled in the header.  A name used as a type
    ([WebXRHandedness], [WebXRView], [webxr_frame_callback_func]) is kept as
    the name; what it resolves to is decided by lookup (section 4). *)
Inductive ctype : Type :=
| TVoid
| TInt
| TFloat
| TName (n : string)
| TPtr (t : ctype)
| TArray (t : ctype) (n : nat).

Fixpoint ctype_eqb (a b : ctype) : bool :=
  match a, b with
  | TVoid, TVoid => true
  | TInt, TInt => true
  | TFloat, TFloat => true
  | TName x, TName y => String.eqb x y
  | TPtr x, TPtr y => ctype_eqb x y
  | TArray x n, TArray y m => ctype_eqb x y && Nat.eqb n m
  | _, _ => false
  end.

(** [NAME = value,] inside an [enum]; the initialiser is optional in C. *)
Record enumerator : Type := Enumerator
  { en_name : string; en_init : option Z }.

Record enum_decl : Type := EnumDecl
  { e_tag : string; e_members : list enumerator }.

Record field : Type := Field
  { fd_name : string; fd_type : ctype }.

(** [typedef struct TAG { fields } NAME;] *)
Record struct_decl : Type := StructDecl
  { s_tag : string; s_fields : list field; s_typedef : string }.

(** A parameter; [p_default] is the enumerator after [=] when the
    declaration gives a default argument. *)
Record param : Type := Param
  { p_name : string; p_type : ctype; p_default : option string }.

(** [typedef RET ( *NAME)(params);] *)
Record callback_decl : Type := CallbackDecl
  { cb_name : string; cb_ret : ctype; cb_params : list param }.

(** [extern RET NAME(params);] *)
Record fun_decl : Type := FunDecl
  { f_name : string; f_ret : ctype; f_params : list param }.

Inductive decl : Type :=
| DEnum (e : enum_decl)
| DStruct (s : struct_decl)
| DCallback (c : callback_decl)
| DFun (f : fun_decl).

(** The file: include guard, the conditional linkage prefix
    ([#ifdef MACRO] / [extern "LINKAGE"] / [#endif]) and the brace block
    that holds every declaration. *)
Record header : Type := Header
  { h_guard : string;
    h_linkage_macro : string;
    h_linkage : string;
    h_block : list decl }.

Definition P (n : string) (t : ctype) : param := Param n t None.
Definition E (n : string) (v : Z) : enumerator := Enumerator n (Some v).

(** ** The enumerations (webxr.h lines 13 to 54) *)

Definition WebXRError_decl : enum_decl :=
  EnumDecl "WebXRError"
    [ E "WEBXR_ERR_API_UNSUPPORTED" (-2);
      E "WEBXR_ERR_GL_INCAPABLE" (-3);
      E "WEBXR_ERR_SESSION_UNSUPPORTED" (-4) ].

Definition WebXRHandedness_decl : enum_decl :=
  EnumDecl "WebXRHandedness"
    [ E "WEBXR_HANDEDNESS_NONE" (-1);
      E "WEBXR_HANDEDNESS_LEFT" 0;
      E "WEBXR_HANDEDNESS_RIGHT" 1 ].

Definition WebXRTargetRayMode_decl : enum_decl :=
  EnumDecl "WebXRTargetRayMode"
    [ E "WEBXR_TARGET_RAY_MODE_GAZE" 0;
      E "WEBXR_TARGET_RAY_MODE_TRACKED_POINTER" 1;
      E "WEBXR_TARGET_RAY_MODE_SCREEN" 2 ].

Definition WebXRSessionMode_decl : enum_decl :=
  EnumDecl "WebXRSessionMode"
    [ E "WEBXR_SESSION_MODE_INLINE" 0;
      E "WEBXR_SESSION_MODE_IMMERSIVE_VR" 1;
      E "WEBXR_SESSION_MODE_IMMERSIVE_AR" 2 ].

Definition WebXRSessionFeatures_decl : enum_decl :=
  EnumDecl "WebXRSessionFeatures"
    [ E "WEBXR_SESSION_FEATURE_LOCAL" 0;
      E "WEBXR_SESSION_FEATURE_LOCAL_FLOOR" 1;
      E "WEBXR_SESSION_FEATURE_BOUNDED_FLOOR" 2;
      E "WEBXR_SESSION_FEATURE_UNBOUNDED" 3;
      E "WEBXR_SESSION_FEATURE_HIT_TEST" 4 ].

Definition WebXRInputPoseMode_decl : enum_decl :=
  EnumDecl "WebXRInputPoseMode"
    [ E "WEBXR_INPUT_POSE_GRIP" 0;
      E "WEBXR_INPUT_POSE_TARGET_RAY" 1 ].

(** ** The structs (lines 56 to 77) *)

Definition WebXRRigidTransform_decl : struct_decl :=
  StructDecl "WebXRRigidTransform"
    [ Field "matrix" (TArray TFloat 16);
      Field "position" (TArray TFloat 3);
      Field "orientation" (TArray TFloat 4) ]
    "WebXRRigidTransform".

Definition WebXRView_decl : struct_decl :=
  StructDecl "WebXRView"
    [ Field "viewPose" (TName "WebXRRigidTransform");
      Field "projectionMatrix" (TArray TFloat 16);
      Field "viewport" (TArray TInt 4) ]
    "WebXRView".

Definition WebXRInputSource_decl : struct_decl :=
  StructDecl "WebXRInputSource"
    [ Field "id" TInt;
      Field "handedness" (TName "WebXRHandedness");
      Field "targetRayMode" (TName "WebXRTargetRayMode") ]
    "WebXRInputSource".

(** ** The callback typedefs (lines 85, 96, 104, 112 and 183)

    Parameters are kept as the declarator spells them, so [views] of the
    frame callback is written as the array of two it is declared with;
    [adjusted] (section 7) gives the type the language assigns to it. *)

Definition webxr_error_callback_func : callback_decl :=
  CallbackDecl "webxr_error_callback_func" TVoid
    [ P "userData" (TPtr TVoid); P "error" TInt ].

Definition webxr_frame_callback_func : callback_decl :=
  CallbackDecl "webxr_frame_callback_func" TVoid
    [ P "userData" (TPtr TVoid);
      P "framebuffer_id" TInt;
      P "time" TInt;
      P "headPose" (TPtr (TName "WebXRRigidTransform"));
      P "views" (TArray (TName "WebXRView") 2);
      P "viewCount" TInt ].

Definition webxr_session_callback_func : callback_decl :=
  CallbackDecl "webxr_session_callback_func" TVoid
    [ P "userData" (TPtr TVoid); P "mode" TInt ].

Definition webxr_session_supported_callback_func : callback_decl :=
  CallbackDecl "webxr_session_supported_callback_func" TVoid
    [ P "mode" TInt; P "supported" TInt ].

Definition webxr_input_callback_func : callback_decl :=
  CallbackDecl "webxr_input_callback_func" TVoid
    [ P "inputSource" (TPtr (TName "WebXRInputSource"));
      P "userData" (TPtr TVoid) ].

(** ** The functions (lines 124 to 213) *)

Definition webxr_init : fun_decl :=
  FunDecl "webxr_init" TVoid
    [ P "frameCallback" (TName "webxr_frame_callback_func");
      P "sessionStartCallback" (TName "webxr_session_callback_func");
      P "sessionEndCallback" (TName "webxr_session_callback_func");
      P "errorCallback" (TName "webxr_error_callback_func");
      P "userData" (TPtr TVoid) ].

Definition webxr_set_session_blur_callback : fun_decl :=
  FunDecl "webxr_set_session_blur_callback" TVoid
    [ P "sessionBlurCallback" (TName "webxr_session_callback_func");
      P "userData" (TPtr TVoid) ].

Definition webxr_set_session_focus_callback : fun_decl :=
  FunDecl "webxr_set_session_focus_callback" TVoid
    [ P "sessionFocusCallback" (TName "webxr_session_callback_func");
      P "userData" (TPtr TVoid) ].

Definition webxr_is_session_supported : fun_decl :=
  FunDecl "webxr_is_session_supported" TVoid
    [ P "mode" (TName "WebXRSessionMode");
      P "supportedCallback" (TName "webxr_session_supported_callback_func") ].

Definition webxr_request_session : fun_decl :=
  FunDecl "webxr_request_session" TVoid
    [ P "mode" (TName "WebXRSessionMode");
      P "requiredFeatures" (TName "WebXRSessionFeatures");
      P "optionalFeatures" (TName "WebXRSessionFeatures") ].

Definition webxr_request_exit : fun_decl :=
  FunDecl "webxr_request_exit" TVoid [].

Definition webxr_set_projection_params : fun_decl :=
  FunDecl "webxr_set_projection_params" TVoid
    [ P "near" TFloat; P "far" TFloat ].

Definition webxr_set_select_callback : fun_decl :=
  FunDecl "webxr_set_select_callback" TVoid
    [ P "callback" (TName "webxr_input_callback_func");
      P "userData" (TPtr TVoid) ].

Definition webxr_set_select_start_callback : fun_decl :=
  FunDecl "webxr_set_select_start_callback" TVoid
    [ P "callback" (TName "webxr_input_callback_func");
      P "userData" (TPtr TVoid) ].

Definition webxr_set_select_end_callback : fun_decl :=
  FunDecl "webxr_set_select_end_callback" TVoid
    [ P "callback" (TName "webxr_input_callback_func");
      P "userData" (TPtr TVoid) ].

Definition webxr_get_input_sources : fun_decl :=
  FunDecl "webxr_get_input_sources" TVoid
    [ P "outArray" (TPtr (TName "WebXRInputSource"));
      P "max" TInt;
      P "outCount" (TPtr TInt) ].

Definition webxr_get_input_pose : fun_decl :=
  FunDecl "webxr_get_input_pose" TInt
    [ P "source" (TPtr (TName "WebXRInputSource"));
      P "outPose" (TPtr (TName "WebXRRigidTransform"));
      Param "mode" (TName "WebXRInputPoseMode") (Some "WEBXR_INPUT_POSE_GRIP") ].

(** ** The whole file, in source order *)

Definition webxr_h : header :=
  Header "WEBXR_H_" "__cplusplus" "C"
    [ DEnum WebXRError_decl;
      DEnum WebXRHandedness_decl;
      DEnum WebXRTargetRayMode_decl;
      DEnum WebXRSessionMode_decl;
      DEnum WebXRSessionFeatures_decl;
      DEnum WebXRInputPoseMode_decl;
      DStruct WebXRRigidTransform_decl;
      DStruct WebXRView_decl;
      DStruct WebXRInputSource_decl;
      DCallback webxr_error_callback_func;
      DCallback webxr_frame_callback_func;
      DCallback webxr_session_callback_func;
      DCallback webxr_session_supported_callback_func;
      DFun webxr_init;
      DFun webxr_set_session_blur_callback;
      DFun webxr_set_session_focus_callback;
      DFun webxr_is_session_supported;
      DFun webxr_request_session;
      DFun webxr_request_exit;
      DFun webxr_set_projection_params;
      DCallback webxr_input_callback_func;
      DFun webxr_set_select_callback;
      DFun webxr_set_select_start_callback;
      DFun webxr_set_select_end_callback;
      DFun webxr_get_input_sources;
      DFun webxr_get_input_pose ].

(** ** Projections of the declaration list *)

Fixpoint enums (ds : list decl) : list enum_decl :=
  match ds with
  | [] => []
  | DEnum e :: r => e :: enums r
  | _ :: r => enums r
  end.

Fixpoint structs (ds : list decl) : list struct_decl :=
  match ds with
  | [] => []
  | DStruct s :: r => s :: structs r
  | _ :: r => structs r
  end.

Fixpoint callbacks (ds : list decl) : list callback_decl :=
  match ds with
  | [] => []
  | DCallback c :: r => c :: callbacks r
  | _ :: r => callbacks r
  end.

Fixpoint functions (ds : list decl) : list fun_decl :=
  match ds with
  | [] => []
  | DFun f :: r => f :: functions r
  | _ :: r => functions r
  end.

Definition find_callback (ds : list decl) (n : string) : option callback_decl :=
  find (fun c => String.eqb (cb_name c) n) (callbacks ds).

Definition find_function (ds : list decl) (n : string) : option fun_decl :=
  find (fun f => String.eqb (f_name f) n) (functions ds).

Definition find_struct (ds : list decl) (n : string) : option struct_decl :=
  find (fun s => String.eqb (s_typedef s) n) (structs ds).

Definition find_param (ps : list param) (n : string) : option param :=
  find (fun p => String.eqb (p_name p) n) ps.

(** The name and type of each parameter, in order. *)
Definition signature (ps : list param) : list (string * ctype) :=
  map (fun p => (p_name p, p_type p)) ps.

(* ================================================================== *)
(** * 2. Enumerator values *)
(* ================================================================== *)

(** C gives an enumerator its initialiser when it has one, otherwise the
    previous enumerator's value plus one (zero for the first). *)
Fixpoint enum_values_from (next : Z) (ms : list enumerator) : list (string * Z) :=
  match ms with
  | [] => []
  | m :: r =>
      let v := match en_init m with Some z => z | None => next end in
      (en_name m, v) :: enum_values_from (v + 1) r
  end.

Definition enum_values (e : enum_decl) : list (string * Z) :=
  enum_values_from 0 (e_members e).

Definition enum_table (ds : list decl) : list (string * list (string * Z)) :=
  map (fun e => (e_tag e, enum_values e)) (enums ds).

Fixpoint assoc {A : Type} (k : string) (l : list (string * A)) : option A :=
  match l with
  | [] => None
  | (k', v) :: r => if String.eqb k k' then Some v else assoc k r
  end.

(** The value of an enumerator, looked up by name across the file. *)
Definition enumerator_value (ds : list decl) (n : string) : option Z :=
  assoc n (List.concat (map enum_values (enums ds))).

(* ================================================================== *)
(** * 3. Struct layout *)
(* ================================================================== *)

(** What the target fixes: size and alignment, in bytes, of the scalar
    types the header uses.  Struct layout is computed from these, never
    assumed. *)
Record platform : Type := Platform
  { sizeof_int : Z; alignof_int : Z;
    sizeof_float : Z; alignof_float : Z;
    sizeof_enum : Z; alignof_enum : Z;
    sizeof_ptr : Z; alignof_ptr : Z }.

(** wasm32, the target of the Emscripten toolchain the header is written
    for: every scalar is four bytes wide and four-byte aligned. *)
Definition wasm32 : platform := Platform 4 4 4 4 4 4 4 4.

(** A 64-bit target, for contrast: pointers are eight bytes. *)
Definition lp64 : platform := Platform 4 4 4 4 4 4 8 8.

(** Size and alignment of the named types declared so far. *)
Definition layout_env : Type := list (string * (Z * Z)).

(** The next multiple of [a] at or after [off]. *)
Definition align_up (off a : Z) : Z := ((off + a - 1) / a) * a.

(** Size and alignment of a type as a struct member or array element.
    [void] has neither; an array is its element repeated with no gap. *)
Fixpoint layout_type (pf : platform) (env : layout_env) (t : ctype)
  : option (Z * Z) :=
  match t with
  | TVoid => None
  | TInt => Some (sizeof_int pf, alignof_int pf)
  | TFloat => Some (sizeof_float pf, alignof_float pf)
  | TName n => assoc n env
  | TPtr _ => Some (sizeof_ptr pf, alignof_ptr pf)
  | TArray e n =>
      match layout_type pf env e with
      | Some (s, a) => Some (Z.of_nat n * s, a)
      | None => None
      end
  end.

Record struct_layout : Type := StructLayout
  { sl_offsets : list (string * Z);   (* byte offset of each field, in order *)
    sl_size : Z;
    sl_align : Z }.

(** Members are placed in declaration order, each at the next offset that
    satisfies its alignment.  [off] is the first free byte, [al] the
    strictest alignment seen; the result lists the offsets in order and
    returns the final [off] and [al]. *)
Fixpoint place_fields (pf : platform) (env : layout_env)
    (off al : Z) (fs : list field) : option (list (string * Z) * Z * Z) :=
  match fs with
  | [] => Some ([], off, al)
  | f :: r =>
      match layout_type pf env (fd_type f) with
      | None => None
      | Some (s, a) =>
          let o := align_up off a in
          match place_fields pf env (o + s) (Z.max al a) r with
          | None => None
          | Some (offs, off', al') => Some ((fd_name f, o) :: offs, off', al')
          end
      end
  end.

(** The struct's size is the end of its last member rounded up to the
    struct's alignment (tail padding). *)
Definition layout_struct (pf : platform) (env : layout_env) (s : struct_decl)
  : option struct_layout :=
  match place_fields pf env 0 1 (s_fields s) with
  | None => None
  | Some (offs, off, al) => Some (StructLayout offs (align_up off al) al)
  end.

(** One pass over the file in source order, as a compiler makes it: each
    declaration may use only the types declared above it. *)
Fixpoint layout_decls (pf : platform) (env : layout_env) (ds : list decl)
  : option (layout_env * list (string * struct_layout)) :=
  match ds with
  | [] => Some (env, [])
  | DEnum e :: r =>
      layout_decls pf ((e_tag e, (sizeof_enum pf, alignof_enum pf)) :: env) r
  | DStruct s :: r =>
      match layout_struct pf env s with
      | None => None
      | Some l =>
          match layout_decls pf ((s_typedef s, (sl_size l, sl_align l)) :: env) r with
          | None => None
          | Some (env', ls) => Some (env', (s_typedef s, l) :: ls)
          end
      end
  | DCallback c :: r =>
      layout_decls pf ((cb_name c, (sizeof_ptr pf, alignof_ptr pf)) :: env) r
  | DFun _ :: r => layout_decls pf env r
  end.

Definition struct_layouts (pf : platform) (h : header)
  : option (list (string * struct_layout)) :=
  match layout_decls pf [] (h_block h) with
  | None => None
  | Some (_, ls) => Some ls
  end.

(** The layout of the struct named [n] in header [h] on platform [pf]. *)
Definition layout_of (pf : platform) (h : header) (n : string)
  : option struct_layout :=
  match struct_layouts pf h with
  | None => None
  | Some ls => assoc n ls
  end.

Definition sizeof_struct (pf : platform) (h : header) (n : string) : option Z :=
  option_map sl_size (layout_of pf h n).

(** The scalars a type is made of, arrays and nested structs unfolded, in
    memory order.  [env] holds the structs declared above the use; a name
    that is not a struct (an enum, a callback type) is a scalar itself. *)
Fixpoint scalars_of_type (env : list (string * list ctype)) (t : ctype)
  : list ctype :=
  match t with
  | TArray e n => List.concat (repeat (scalars_of_type env e) n)
  | TName n => match assoc n env with Some l => l | None => [t] end
  | _ => [t]
  end.

Definition scalars_of_struct (env : list (string * list ctype)) (s : struct_decl)
  : list ctype :=
  List.concat (map (fun f => scalars_of_type env (fd_type f)) (s_fields s)).

Fixpoint scalar_env (env : list (string * list ctype)) (ds : list decl)
  : list (string * list ctype) :=
  match ds with
  | [] => env
  | DStruct s :: r => scalar_env ((s_typedef s, scalars_of_struct env s) :: env) r
  | _ :: r => scalar_env env r
  end.

Definition scalars (h : header) (n : string) : option (list ctype) :=
  assoc n (scalar_env [] (h_block h)).

(* ================================================================== *)
(** * 4. Well-formedness under a C or a C++ compiler *)
(* ================================================================== *)

Inductive language : Type := LangC | LangCxx.

(** The one predefined macro the header tests. *)
Definition macro_defined (l : language) (m : string) : bool :=
  match l with
  | LangCxx => String.eqb m "__cplusplus"
  | LangC => false
  end.

(** The file after preprocessing: the linkage prefix survives only when
    its macro is defined; the brace block is there in either case. *)
Record translation_unit : Type := TranslationUnit
  { tu_linkage : option string; tu_decls : list decl }.

Definition preprocess (l : language) (h : header) : translation_unit :=
  TranslationUnit
    (if macro_defined l (h_linkage_macro h) then Some (h_linkage h) else None)
    (h_block h).

(** Names declared so far.  C keeps struct and enum tags apart from
    ordinary identifiers; C++ lets a tag name the type on its own. *)
Record scope : Type := Scope
  { sc_typedefs : list string;
    sc_tags : list string;
    sc_enumerators : list string }.

Definition empty_scope : scope := Scope [] [] [].

Definition mem (n : string) (l : list string) : bool :=
  existsb (String.eqb n) l.

Definition type_name_ok (l : language) (sc : scope) (n : string) : bool :=
  mem n (sc_typedefs sc)
  || match l with
     | LangCxx => mem n (sc_tags sc)
     | LangC => false
     end.

Fixpoint type_ok (l : language) (sc : scope) (t : ctype) : bool :=
  match t with
  | TVoid | TInt | TFloat => true
  | TName n => type_name_ok l sc n
  | TPtr e => type_ok l sc e
  | TArray e n => type_ok l sc e && Nat.ltb 0 n
  end.

(** A default argument is C++ syntax, and must name something declared. *)
Definition default_ok (l : language) (sc : scope) (d : option string) : bool :=
  match d with
  | None => true
  | Some e =>
      match l with
      | LangCxx => mem e (sc_enumerators sc)
      | LangC => false
      end
  end.

Definition param_ok (l : language) (sc : scope) (p : param) : bool :=
  type_ok l sc (p_type p) && default_ok l sc (p_default p).

(** Once a parameter has a default argument every later one needs one. *)
Fixpoint defaults_trailing (ps : list param) : bool :=
  match ps with
  | [] => true
  | p :: r =>
      match p_default p with
      | Some _ => forallb (fun q => match p_default q with Some _ => true | None => false end) r
      | None => defaults_trailing r
      end
  end.

Definition params_ok (l : language) (sc : scope) (ps : list param) : bool :=
  forallb (param_ok l sc) ps && defaults_trailing ps.

(** Checks one declaration against the scope above it and returns the
    scope below it. *)
Definition check_decl (l : language) (sc : scope) (d : decl) : option scope :=
  match d with
  | DEnum e =>
      let names := map en_name (e_members e) in
      if negb (mem (e_tag e) (sc_tags sc))
         && forallb (fun n => negb (mem n (sc_enumerators sc))) names
      then Some (Scope (sc_typedefs sc) (e_tag e :: sc_tags sc)
                       (names ++ sc_enumerators sc))
      else None
  | DStruct s =>
      if negb (mem (s_tag s) (sc_tags sc))
         && forallb (fun f => type_ok l sc (fd_type f)) (s_fields s)
      then Some (Scope (s_typedef s :: sc_typedefs sc) (s_tag s :: sc_tags sc)
                       (sc_enumerators sc))
      else None
  | DCallback c =>
      if type_ok l sc (cb_ret c) && params_ok l sc (cb_params c)
         && forallb (fun p => match p_default p with None => true | Some _ => false end)
                    (cb_params c)
      then Some (Scope (cb_name c :: sc_typedefs sc) (sc_tags sc)
                       (sc_enumerators sc))
      else None
  | DFun f =>
      if type_ok l sc (f_ret f) && params_ok l sc (f_params f)
      then Some sc
      else None
  end.

Fixpoint check_decls (l : language) (sc : scope) (ds : list decl) : bool :=
  match ds with
  | [] => true
  | d :: r =>
      match check_decl l sc d with
      | Some sc' => check_decls l sc' r
      | None => false
      end
  end.

(** A brace block at file scope is only the body of a linkage
    specification, which only C++ has. *)
Definition linkage_ok (l : language) (lk : option string) : bool :=
  match l, lk with
  | LangCxx, Some s => String.eqb s "C" || String.eqb s "C++"
  | _, _ => false
  end.

Definition well_formed (l : language) (h : header) : bool :=
  let tu := preprocess l h in
  linkage_ok l (tu_linkage tu) && check_decls l empty_scope (tu_decls tu).

(* ================================================================== *)
(** * 5. Calls and default arguments *)
(* ================================================================== *)

(** The argument list the callee receives for a call written with [args]:
    arguments bind to parameters left to right, and a parameter left
    without an argument takes its default ([dflt] turns the enumerator
    named there into an argument).  [None]: too many arguments, or a
    missing one with no default. *)
Fixpoint complete_call {A : Type} (dflt : string -> A)
    (ps : list param) (args : list A) : option (list A) :=
  match ps, args with
  | [], [] => Some []
  | [], _ :: _ => None
  | _ :: ps', a :: args' => option_map (cons a) (complete_call dflt ps' args')
  | p :: ps', [] =>
      match p_default p with
      | Some d => option_map (cons (dflt d)) (complete_call dflt ps' [])
      | None => None
      end
  end.

(* ================================================================== *)
(** * 6. The facade behind the declarations *)
(* ================================================================== *)

(** The header declares the entry points and the callback types; the code
    that implements the entry points and invokes the callbacks is linked in
    separately.  Its behaviour is taken from the specification's sections
    3, 4.2 to 4.4 and 5, as a transition function from control calls and
    host events to the callbacks invoked. *)
Module Facade.

(** The values of the header's enumerations that the facade handles. *)
Inductive WebXRSessionMode : Type :=
| WEBXR_SESSION_MODE_INLINE
| WEBXR_SESSION_MODE_IMMERSIVE_VR
| WEBXR_SESSION_MODE_IMMERSIVE_AR.

Definition mode_value (m : WebXRSessionMode) : Z :=
  match m with
  | WEBXR_SESSION_MODE_INLINE => 0
  | WEBXR_SESSION_MODE_IMMERSIVE_VR => 1
  | WEBXR_SESSION_MODE_IMMERSIVE_AR => 2
  end.

Inductive WebXRError : Type :=
| WEBXR_ERR_API_UNSUPPORTED
| WEBXR_ERR_GL_INCAPABLE
| WEBXR_ERR_SESSION_UNSUPPORTED.

Definition error_value (e : WebXRError) : Z :=
  match e with
  | WEBXR_ERR_API_UNSUPPORTED => -2
  | WEBXR_ERR_GL_INCAPABLE => -3
  | WEBXR_ERR_SESSION_UNSUPPORTED => -4
  end.

(** A [float] is carried by its 32-bit pattern; nothing here computes
    with it.  A pointer handed through ([userData]) is an address. *)
Definition float : Type := Z.
Definition pointer : Type := Z.

Record WebXRRigidTransform : Type := RigidTransform
  { matrix : list float; position : list float; orientation : list float }.

Record WebXRView : Type := View
  { viewPose : WebXRRigidTransform;
    projectionMatrix : list float;
    viewport : list Z }.

(** Modelled from the spec: the views the host grants with a frame, "one
    per eye to render": one for inline or mono rendering, two for stereo
    (section 4.4).  The host side of the glue is not in the header. *)
Inductive eye_views : Type :=
| Mono (v : WebXRView)
| Stereo (left right : WebXRView).

(** One invocation of a callback, with the arguments its typedef in the
    header declares.  The two-entry [views] storage is a list of slots;
    [None] is a slot the facade did not write. *)
Inductive callback_call : Type :=
| CallError (userData : pointer) (error : Z)
| CallFrame (userData : pointer) (framebuffer_id time : Z)
            (headPose : WebXRRigidTransform)
            (views : list (option WebXRView)) (viewCount : Z)
| CallSessionStart (userData : pointer) (mode : Z)
| CallSessionEnd (userData : pointer) (mode : Z)
| CallSessionBlur (userData : pointer) (mode : Z)
| CallSessionFocus (userData : pointer) (mode : Z).

(** Modelled from the spec: the session states of section 3, "Session
    state (implicit)".  The glue that holds this state is not in the
    header. *)
Inductive phase : Type :=
| Uninitialized
| InitializedIdle
| SessionRequested (m : WebXRSessionMode)
| SessionActive (m : WebXRSessionMode)
| SessionBlurred (m : WebXRSessionMode)
| SessionEnded.

(** Modelled from the spec: what the facade keeps between calls, the
    session state and the [userData] pointers it was given (sections 4.2
    and 5: "the facade retains them across callbacks").  The glue that
    stores them is not in the header. *)
Record facade : Type := MkFacade
  { ph : phase;
    init_userData : pointer;
    blur_userData : option pointer;     (* [None]: no handler registered *)
    focus_userData : option pointer }.

Definition initial : facade := MkFacade Uninitialized 0 None None.

(** Modelled from the spec: what drives the facade, the caller's control
    calls (the [extern] functions of the header) and the host's events
    (sections 2 and 4.3: grant or denial of a request, frames, visibility
    changes, confirmation of exit).  The host side is not in the header. *)
Inductive input : Type :=
| Init (userData : pointer) (host_has_xr gl_capable : bool)
| SetSessionBlurCallback (userData : pointer)
| SetSessionFocusCallback (userData : pointer)
| RequestSession (m : WebXRSessionMode)
| RequestExit
| HostGrantsSession
| HostDeniesSession
| HostFrame (framebuffer_id time : Z) (headPose : WebXRRigidTransform)
            (eyes : eye_views)
| HostBlur
| HostFocus
| HostConfirmsExit.

Definition set_phase (f : facade) (p : phase) : facade :=
  MkFacade p (init_userData f) (blur_userData f) (focus_userData f).

(** Modelled from the spec: how the facade fills the frame callback's
    [views] and [viewCount] (section 4.4: "viewCount (1 for inline/mono, 2
    for stereo) specifies how many are valid ... entries beyond it are
    undefined").  The glue that fills them is not in the header. *)
Definition fill_views (e : eye_views) : list (option WebXRView) * Z :=
  match e with
  | Mono v => ([Some v; None], 1)
  | Stereo l r => ([Some l; Some r], 2)
  end.

Definition optional_call (mk : pointer -> callback_call) (u : option pointer)
  : list callback_call :=
  match u with
  | Some p => [mk p]
  | None => []
  end.

(** Modelled from the spec: one reaction of the facade (sections 4.2, 4.3
    and 4.4; the implementation of the [extern] entry points is not in the
    header).
    - [init] registers the callbacks and [userData]; a host without XR, or
      a graphics context that cannot back a session, is reported through
      the error callback (4.2).
    - Control calls before [init] are ignored (section 8, init before use).
    - [request_session] is forwarded to the host when no session is active
      or pending; with one active it is rejected through the error
      callback (section 8, single session).
    - When the host grants the request the session-start callback is
      invoked with the granted mode; when it denies it the error is
      SESSION_UNSUPPORTED (4.3).
    - The frame callback is invoked each time the host grants a frame to
      the session (4.4).
    - [request_exit] only asks; the session-end callback fires when the
      host confirms, and with no session it is a no-op (4.3). *)
Definition step (f : facade) (i : input) : facade * list callback_call :=
  match i, ph f with
  | Init u has_xr gl, Uninitialized =>
      if negb has_xr then
        (f, [CallError u (error_value WEBXR_ERR_API_UNSUPPORTED)])
      else if negb gl then
        (f, [CallError u (error_value WEBXR_ERR_GL_INCAPABLE)])
      else
        (MkFacade InitializedIdle u (blur_userData f) (focus_userData f), [])
  | _, Uninitialized => (f, [])
  | Init _ _ _, _ => (f, [])
  | SetSessionBlurCallback u, p =>
      (MkFacade p (init_userData f) (Some u) (focus_userData f), [])
  | SetSessionFocusCallback u, p =>
      (MkFacade p (init_userData f) (blur_userData f) (Some u), [])
  | RequestSession m, (InitializedIdle | SessionEnded) =>
      (set_phase f (SessionRequested m), [])
  | RequestSession _, _ =>
      (f, [CallError (init_userData f) (error_value WEBXR_ERR_SESSION_UNSUPPORTED)])
  | HostGrantsSession, SessionRequested m =>
      (set_phase f (SessionActive m),
       [CallSessionStart (init_userData f) (mode_value m)])
  | HostDeniesSession, SessionRequested m =>
      (set_phase f InitializedIdle,
       [CallError (init_userData f) (error_value WEBXR_ERR_SESSION_UNSUPPORTED)])
  | HostFrame fb t head eyes, (SessionActive _ | SessionBlurred _) =>
      let (vs, n) := fill_views eyes in
      (f, [CallFrame (init_userData f) fb t head vs n])
  | HostBlur, SessionActive m =>
      (set_phase f (SessionBlurred m),
       optional_call (fun u => CallSessionBlur u (mode_value m)) (blur_userData f))
  | HostFocus, SessionBlurred m =>
      (set_phase f (SessionActive m),
       optional_call (fun u => CallSessionFocus u (mode_value m)) (focus_userData f))
  | HostConfirmsExit, (SessionActive m | SessionBlurred m) =>
      (set_phase f SessionEnded,
       [CallSessionEnd (init_userData f) (mode_value m)])
  | _, _ => (f, [])
  end.

(** The callbacks invoked, in order, while the facade consumes [ins]. *)
Fixpoint run (f : facade) (ins : list input) : list callback_call :=
  match ins with
  | [] => []
  | i :: r => let (f', out) := step f i in out ++ run f' r
  end.

Definition is_frame (c : callback_call) : bool :=
  match c with CallFrame _ _ _ _ _ _ => true | _ => false end.

Definition is_session_start (c : callback_call) : bool :=
  match c with CallSessionStart _ _ => true | _ => false end.

Definition is_session_end (c : callback_call) : bool :=
  match c with CallSessionEnd _ _ => true | _ => false end.

(** The session round trip of the specification's scenario 3, on a host
    that grants an immersive-VR session and one stereo frame. *)
Definition origin : WebXRRigidTransform := RigidTransform [] [] [].
Definition eye : WebXRView := View origin [] [0; 0; 1; 1].

Definition session_round_trip : list input :=
  [ Init 7 true true;
    RequestSession WEBXR_SESSION_MODE_IMMERSIVE_VR;
    HostGrantsSession;
    HostFrame 1 16 origin (Stereo eye eye);
    RequestExit;
    HostConfirmsExit;
    HostFrame 1 32 origin (Stereo eye eye) ].

Definition not_session_end (c : callback_call) : bool :=
  negb (is_session_end c).

(** Whether a session is open between its start and end callbacks. *)
Definition in_session (p : phase) : bool :=
  match p with
  | SessionActive _ | SessionBlurred _ => true
  | _ => false
  end.

(** The bracket discipline of a trace, read left to right: a start only
    outside a session, an end and a frame only inside one. *)
Fixpoint bracketed (inside : bool) (tr : list callback_call) : bool :=
  match tr with
  | [] => true
  | c :: r =>
      if is_session_start c then negb inside && bracketed true r
      else if is_session_end c then inside && bracketed false r
      else if is_frame c then inside && bracketed inside r
      else bracketed inside r
  end.


(** An inline session that renders one mono frame. *)
Definition inline_session : list input :=
  [ Init 7 true true;
    RequestSession WEBXR_SESSION_MODE_INLINE;
    HostGrantsSession;
    HostFrame 1 16 origin (Mono eye) ].


End Facade.

(* ================================================================== *)
(** * 7. Vocabulary of the properties *)
(* ================================================================== *)

(** The enumeration table as the specification's section 4.1 writes it:
    for each enumeration of the header, the member names without their
    common prefix and the value in parentheses. *)
Definition spec_enum_table : list (string * string * list (string * Z)) :=
  [ ("WebXRError", "WEBXR_ERR_",
     [ ("API_UNSUPPORTED", -2); ("GL_INCAPABLE", -3); ("SESSION_UNSUPPORTED", -4) ]);
    ("WebXRHandedness", "WEBXR_HANDEDNESS_",
     [ ("NONE", -1); ("LEFT", 0); ("RIGHT", 1) ]);
    ("WebXRTargetRayMode", "WEBXR_TARGET_RAY_MODE_",
     [ ("GAZE", 0); ("TRACKED_POINTER", 1); ("SCREEN", 2) ]);
    ("WebXRSessionMode", "WEBXR_SESSION_MODE_",
     [ ("INLINE", 0); ("IMMERSIVE_VR", 1); ("IMMERSIVE_AR", 2) ]);
    ("WebXRSessionFeatures", "WEBXR_SESSION_FEATURE_",
     [ ("LOCAL", 0); ("LOCAL_FLOOR", 1); ("BOUNDED_FLOOR", 2);
       ("UNBOUNDED", 3); ("HIT_TEST", 4) ]);
    ("WebXRInputPoseMode", "WEBXR_INPUT_POSE_",
     [ ("GRIP", 0); ("TARGET_RAY", 1) ]) ].

(** The same table with each member under its full identifier. *)
Definition spec_enum_values : list (string * list (string * Z)) :=
  map (fun row =>
         match row with
         | (tag, prefix, ms) =>
             (tag, map (fun m => (prefix ++ fst m, snd m)) ms)
         end)
      spec_enum_table.

(** A parameter list carries the caller's context when it has a
    [void* userData]. *)
Definition has_userData (ps : list param) : bool :=
  existsb (fun p => String.eqb (p_name p) "userData"
                    && ctype_eqb (p_type p) (TPtr TVoid)) ps.

Definition is_pointer (t : ctype) : bool :=
  match t with
  | TPtr _ | TArray _ _ => true
  | _ => false
  end.

(** The callback types among a function's parameters, in order: what a
    call to the function registers. *)
Definition registered_callbacks (ds : list decl) (f : fun_decl)
  : list callback_decl :=
  flat_map (fun p =>
              match p_type p with
              | TName n =>
                  match find_callback ds n with
                  | Some c => [c]
                  | None => []
                  end
              | _ => []
              end)
           (f_params f).


(** A set of values usable as a bitmask: each a single bit, all distinct. *)
Definition single_bit (v : Z) : bool :=
  (0 <? v) && (Z.land v (v - 1) =? 0).

Fixpoint distinct (l : list Z) : bool :=
  match l with
  | [] => true
  | x :: r => negb (existsb (Z.eqb x) r) && distinct r
  end.

Definition is_flag_set (vs : list Z) : bool :=
  forallb single_bit vs && distinct vs.

Definition find_enum (ds : list decl) (n : string) : option enum_decl :=
  find (fun e => String.eqb (e_tag e) n) (enums ds).

(** ** Decoding, parameter kinds, per-declaration checks *)

(** The member of [e] that has value [v]: how a handler turns the [int]
    it receives back into the enumerator. *)
Definition enum_member (e : enum_decl) (v : Z) : option string :=
  option_map fst (find (fun m => Z.eqb (snd m) v) (enum_values e)).

Definition has_initialiser (m : enumerator) : bool :=
  match en_init m with Some _ => true | None => false end.

(** Whether a type, as spelled, names one of the file's enumerations. *)
Fixpoint names_enum (ds : list decl) (t : ctype) : bool :=
  match t with
  | TName n => existsb (fun e => String.eqb (e_tag e) n) (enums ds)
  | TPtr e => names_enum ds e
  | TArray e _ => names_enum ds e
  | _ => false
  end.

Definition has_default (p : param) : bool :=
  match p_default p with Some _ => true | None => false end.

(** The least number of arguments a call must write. *)
Definition required_args (ps : list param) : nat :=
  List.length (filter (fun p => negb (has_default p)) ps).

Definition decl_name (d : decl) : string :=
  match d with
  | DEnum e => e_tag e
  | DStruct s => s_typedef s
  | DCallback c => cb_name c
  | DFun f => f_name f
  end.

(** The names a declaration brings into scope, whether or not the
    declaration itself was accepted (a compiler goes on after an error). *)
Definition declare (sc : scope) (d : decl) : scope :=
  match d with
  | DEnum e =>
      Scope (sc_typedefs sc) (e_tag e :: sc_tags sc)
            (map en_name (e_members e) ++ sc_enumerators sc)%list
  | DStruct s =>
      Scope (s_typedef s :: sc_typedefs sc) (s_tag s :: sc_tags sc)
            (sc_enumerators sc)
  | DCallback c =>
      Scope (cb_name c :: sc_typedefs sc) (sc_tags sc) (sc_enumerators sc)
  | DFun _ => sc
  end.

(** The declarations a compiler for [l] reports, each checked in the scope
    of everything declared above it. *)
Fixpoint rejected (l : language) (sc : scope) (ds : list decl) : list string :=
  match ds with
  | [] => []
  | d :: r =>
      (match check_decl l sc d with
       | Some _ => []
       | None => [decl_name d]
       end ++ rejected l (declare sc d) r)%list
  end.

(** ** Parameter types as the language sees them *)

(** A parameter declared as an array of [T] has type pointer to [T]: the
    bound written in the declarator is not part of the function type (C
    6.7.6.3, C++ [dcl.fct]). *)
Definition adjusted (t : ctype) : ctype :=
  match t with
  | TArray e _ => TPtr e
  | _ => t
  end.

(** The type a callback typedef names: result and adjusted parameter
    types. *)
Definition callback_type (c : callback_decl) : ctype * list ctype :=
  (cb_ret c, map (fun p => adjusted (p_type p)) (cb_params c)).

(** The frame callback typedef of line 96 with [k] written as the bound of
    [views]; [k = 2] is the header's. *)
Definition frame_callback_with_bound (k : nat) : callback_decl :=
  CallbackDecl "webxr_frame_callback_func" TVoid
    [ P "userData" (TPtr TVoid);
      P "framebuffer_id" TInt;
      P "time" TInt;
      P "headPose" (TPtr (TName "WebXRRigidTransform"));
      P "views" (TArray (TName "WebXRView") k);
      P "viewCount" TInt ].

(** The reading of "the callback type fixes the storage of parameter [n]
    to [k] entries": the type of [n] in the callback type is an array of
    [k]. *)
Definition type_fixes_storage (c : callback_decl) (n : string) (k : nat) : Prop :=
  exists e,
    option_map (fun p => adjusted (p_type p)) (find_param (cb_params c) n)
    = Some (TArray e k).

(** What a pointer or array type leads to. *)
Fixpoint pointee (t : ctype) : ctype :=
  match t with
  | TPtr e => pointee e
  | TArray e _ => pointee e
  | _ => t
  end.

(** Whether a value of type [t] hands over an enumeration: [t] is one, or
    leads to a struct with an enumeration among its scalars. *)
Definition carries_enum (h : header) (t : ctype) : bool :=
  existsb (names_enum (h_block h))
          (scalars_of_type (scalar_env [] (h_block h)) (pointee t)).

(** The types a declaration spells: fields, result and parameters. *)
Definition spelled_types (d : decl) : list ctype :=
  match d with
  | DEnum _ => []
  | DStruct s => map fd_type (s_fields s)
  | DCallback c => cb_ret c :: map p_type (cb_params c)
  | DFun f => f_ret f :: map p_type (f_params f)
  end.

(** Whether a declaration names an enumeration by its tag alone. *)
Definition uses_bare_enum (ds : list decl) (d : decl) : bool :=
  existsb (names_enum ds) (spelled_types d).

(* ================================================================== *)
(** * 8. Properties of the declarations *)
(* ================================================================== *)

(** An element of an explicit list is one of its entries. *)
Ltac in_cases H :=
  repeat (destruct H as [H | H]; [subst | ]); try contradiction.

Lemma enumerator_names_distinct :
  NoDup (map fst (List.concat (map enum_values (enums (h_block webxr_h))))).
Proof.
  cbv -[String.eqb].
  repeat (constructor; [ cbn; intuition discriminate | ]).
  constructor.
Qed.

(** C1. The header declares exactly the six enumerations of the
    specification's table 4.1, and every member has exactly the value the
    table gives it: the table of evaluated enumerators equals the
    specification's table, and looking up any member by its identifier
    returns the tabulated value. *)
Theorem enum_values_match_spec_table :
  enum_table (h_block webxr_h) = spec_enum_values
  /\ Forall (fun row =>
               Forall (fun m => enumerator_value (h_block webxr_h) (fst m)
                                = Some (snd m))
                      (snd row))
            spec_enum_values.
Proof.
  split; [ reflexivity | ].
  repeat (constructor; [ repeat (constructor; [ reflexivity | ]); constructor | ]).
  constructor.
Qed.

(** C2. The header declares twelve functions; all return [void] except
    [webxr_get_input_pose], which returns [int]; none returns the error
    enumeration. *)
Theorem control_functions_return_void :
  map f_name (functions (h_block webxr_h))
  = [ "webxr_init"; "webxr_set_session_blur_callback";
      "webxr_set_session_focus_callback"; "webxr_is_session_supported";
      "webxr_request_session"; "webxr_request_exit";
      "webxr_set_projection_params"; "webxr_set_select_callback";
      "webxr_set_select_start_callback"; "webxr_set_select_end_callback";
      "webxr_get_input_sources"; "webxr_get_input_pose" ]
  /\ Forall (fun f =>
               (if String.eqb (f_name f) "webxr_get_input_pose"
                then f_ret f = TInt
                else f_ret f = TVoid)
               /\ f_ret f <> TName "WebXRError")
            (functions (h_block webxr_h)).
Proof.
  split; [ reflexivity | ].
  repeat (constructor; [ split; [ reflexivity | discriminate ] | ]).
  constructor.
Qed.

Lemma callbacks_of_header :
  callbacks (h_block webxr_h)
  = [ webxr_error_callback_func; webxr_frame_callback_func;
      webxr_session_callback_func; webxr_session_supported_callback_func;
      webxr_input_callback_func ].
Proof. reflexivity. Qed.

(** Among the callback types, the session-support one and only it lacks
    a [void* userData] parameter. *)
Lemma userData_missing_only_in_supported (c : callback_decl) :
  In c (callbacks (h_block webxr_h)) ->
  (has_userData (cb_params c) = false
   <-> c = webxr_session_supported_callback_func).
Proof.
  rewrite callbacks_of_header. intros H. cbn in H.
  in_cases H; split; intros E; try reflexivity; try discriminate E.
Qed.



(** C7. [webxr_request_session] takes, in this order, the mode, one
    required feature and one optional feature; each feature parameter has
    the enumeration type [WebXRSessionFeatures] itself (no pointer, no
    array), and that enumeration cannot serve as a bitmask: its values are
    0 to 4, so LOCAL has no bit and LOCAL_FLOOR | BOUNDED_FLOOR is
    UNBOUNDED. *)
Theorem request_session_takes_single_feature_tags :
  signature (f_params webxr_request_session)
  = [ ("mode", TName "WebXRSessionMode");
      ("requiredFeatures", TName "WebXRSessionFeatures");
      ("optionalFeatures", TName "WebXRSessionFeatures") ]
  /\ find_enum (h_block webxr_h) "WebXRSessionFeatures"
     = Some WebXRSessionFeatures_decl
  /\ forallb (fun p => negb (is_pointer (p_type p)))
             (f_params webxr_request_session) = true
  /\ map snd (enum_values WebXRSessionFeatures_decl) = [0; 1; 2; 3; 4]
  /\ is_flag_set (map snd (enum_values WebXRSessionFeatures_decl)) = false
  /\ (exists a b c,
         enumerator_value (h_block webxr_h) "WEBXR_SESSION_FEATURE_LOCAL_FLOOR" = Some a
         /\ enumerator_value (h_block webxr_h) "WEBXR_SESSION_FEATURE_BOUNDED_FLOOR" = Some b
         /\ enumerator_value (h_block webxr_h) "WEBXR_SESSION_FEATURE_UNBOUNDED" = Some c
         /\ Z.lor a b = c).
Proof.
  repeat split; try reflexivity.
  exists 1, 2, 3. repeat split; reflexivity.
Qed.

(** C9. The session-support callback type takes the mode and the
    supported flag and nothing else: no [userData] and no pointer at all.
    Every other callback type of the header has a [void* userData]
    parameter.  [webxr_is_session_supported], which takes that callback, has
    no [userData] parameter either, so no context pointer reaches the
    handler. *)
Theorem supported_callback_has_no_userData :
  signature (cb_params webxr_session_supported_callback_func)
  = [ ("mode", TInt); ("supported", TInt) ]
  /\ has_userData (cb_params webxr_session_supported_callback_func) = false
  /\ forallb (fun p => negb (is_pointer (p_type p)))
             (cb_params webxr_session_supported_callback_func) = true
  /\ Forall (fun c =>
               has_userData (cb_params c)
               = negb (String.eqb (cb_name c) "webxr_session_supported_callback_func"))
            (callbacks (h_block webxr_h))
  /\ signature (f_params webxr_is_session_supported)
     = [ ("mode", TName "WebXRSessionMode");
         ("supportedCallback", TName "webxr_session_supported_callback_func") ]
  /\ registered_callbacks (h_block webxr_h) webxr_is_session_supported
     = [ webxr_session_supported_callback_func ]
  /\ has_userData (f_params webxr_is_session_supported) = false.
Proof.
  repeat split; try reflexivity.
  repeat (constructor; [ reflexivity | ]). constructor.
Qed.

(* ================================================================== *)
(** * 9. Layout of the records *)
(* ================================================================== *)

Lemma align_up_multiple (k a : Z) : 0 < a -> align_up (k * a) a = k * a.
Proof.
  intros Ha. unfold align_up.
  replace (k * a + a - 1) with ((a - 1) + k * a) by lia.
  rewrite Z.div_add by lia.
  rewrite (Z.div_small (a - 1) a) by lia.
  lia.
Qed.

(** Whatever the width of a [float], as long as it is a multiple of its
    alignment, the rigid transform is its 23 floats back to back: no
    padding between the arrays or at the end. *)
Lemma rigid_transform_no_padding (pf : platform) (k : Z) :
  0 < alignof_float pf ->
  sizeof_float pf = k * alignof_float pf ->
  0 <= k ->
  layout_of pf webxr_h "WebXRRigidTransform"
  = Some (StructLayout
            [ ("matrix", 0);
              ("position", 16 * sizeof_float pf);
              ("orientation", 19 * sizeof_float pf) ]
            (23 * sizeof_float pf)
            (Z.max 1 (alignof_float pf))).
Proof.
  intros Ha Hs Hk.
  destruct pf as [si ai sf af se ae sp ap]; cbn in Ha, Hs.
  unfold layout_of, struct_layouts; cbn -[Z.mul Z.add Z.max align_up Z.of_nat].
  unfold layout_struct; cbn -[Z.mul Z.add Z.max align_up Z.of_nat].
  subst sf.
  replace (Z.max (Z.max (Z.max 1 af) af) af) with af by lia.
  replace (Z.max 1 af) with af by lia.
  change (align_up 0 af) with (align_up (0 * af) af).
  rewrite (align_up_multiple 0 af Ha).
  replace (0 * af + Z.of_nat 16 * (k * af)) with ((16 * k) * af) by lia.
  rewrite (align_up_multiple (16 * k) af Ha).
  replace (16 * k * af + Z.of_nat 3 * (k * af)) with ((19 * k) * af) by lia.
  rewrite (align_up_multiple (19 * k) af Ha).
  replace (19 * k * af + Z.of_nat 4 * (k * af)) with ((23 * k) * af) by lia.
  rewrite (align_up_multiple (23 * k) af Ha).
  rewrite Z.mul_0_l, <- !Z.mul_assoc. reflexivity.
Qed.

(** C3. [WebXRRigidTransform] has exactly the fields [matrix[16]],
    [position[3]], [orientation[4]], in that order, all of type [float]: 23
    floats and nothing else.  On a platform whose [float] is four bytes
    wide and four-byte aligned the arrays sit at offsets 0, 64 and 76 and
    the struct is 92 bytes. *)
Theorem rigid_transform_is_23_floats_92_bytes (pf : platform) :
  sizeof_float pf = 4 ->
  alignof_float pf = 4 ->
  find_struct (h_block webxr_h) "WebXRRigidTransform"
  = Some (StructDecl "WebXRRigidTransform"
            [ Field "matrix" (TArray TFloat 16);
              Field "position" (TArray TFloat 3);
              Field "orientation" (TArray TFloat 4) ]
            "WebXRRigidTransform")
  /\ scalars webxr_h "WebXRRigidTransform" = Some (repeat TFloat 23)
  /\ layout_of pf webxr_h "WebXRRigidTransform"
     = Some (StructLayout
               [ ("matrix", 0); ("position", 64); ("orientation", 76) ] 92 4)
  /\ sizeof_struct pf webxr_h "WebXRRigidTransform" = Some 92.
Proof.
  intros Hs Ha.
  assert (L : layout_of pf webxr_h "WebXRRigidTransform"
              = Some (StructLayout
                        [ ("matrix", 0); ("position", 64); ("orientation", 76) ]
                        92 4)).
  { rewrite (rigid_transform_no_padding pf 1) by lia.
    rewrite Hs, Ha. reflexivity. }
  repeat split; try reflexivity; try exact L.
  unfold sizeof_struct. rewrite L. reflexivity.
Qed.

Lemma rigid_transform_is_23_floats_92_bytes_wasm32 :
  sizeof_float wasm32 = 4
  /\ alignof_float wasm32 = 4
  /\ sizeof_struct wasm32 webxr_h "WebXRRigidTransform" = Some 92.
Proof.
  split; [ reflexivity | split; [ reflexivity | ] ].
  apply (rigid_transform_is_23_floats_92_bytes wasm32); reflexivity.
Defined.

(** C4. [WebXRView] has exactly the fields [viewPose] (a
    [WebXRRigidTransform]), [projectionMatrix[16]] (floats) and
    [viewport[4]] (ints), in that order.  On a platform whose [float] and
    [int] are four bytes wide and four-byte aligned the members take 92, 64
    and 16 bytes at offsets 0, 92 and 156, and the struct is 172 bytes. *)
Theorem view_is_transform_projection_viewport_172_bytes (pf : platform) :
  sizeof_float pf = 4 ->
  alignof_float pf = 4 ->
  sizeof_int pf = 4 ->
  alignof_int pf = 4 ->
  find_struct (h_block webxr_h) "WebXRView"
  = Some (StructDecl "WebXRView"
            [ Field "viewPose" (TName "WebXRRigidTransform");
              Field "projectionMatrix" (TArray TFloat 16);
              Field "viewport" (TArray TInt 4) ]
            "WebXRView")
  /\ scalars webxr_h "WebXRView" = Some (repeat TFloat 39 ++ repeat TInt 4)%list
  /\ sizeof_struct pf webxr_h "WebXRRigidTransform" = Some 92
  /\ layout_type pf [] (TArray TFloat 16) = Some (64, 4)
  /\ layout_type pf [] (TArray TInt 4) = Some (16, 4)
  /\ layout_of pf webxr_h "WebXRView"
     = Some (StructLayout
               [ ("viewPose", 0); ("projectionMatrix", 92); ("viewport", 156) ]
               172 4)
  /\ sizeof_struct pf webxr_h "WebXRView" = Some 172.
Proof.
  intros Hsf Haf Hsi Hai.
  destruct pf as [si ai sf af se ae sp ap]; cbn in Hsf, Haf, Hsi, Hai; subst.
  repeat split; reflexivity.
Qed.

Lemma view_is_transform_projection_viewport_172_bytes_wasm32 :
  sizeof_float wasm32 = 4
  /\ alignof_float wasm32 = 4
  /\ sizeof_int wasm32 = 4
  /\ alignof_int wasm32 = 4
  /\ sizeof_struct wasm32 webxr_h "WebXRView" = Some 172.
Proof.
  repeat (split; [ reflexivity | ]).
  apply (view_is_transform_projection_viewport_172_bytes wasm32); reflexivity.
Defined.

(* ================================================================== *)
(** * 10. The default argument and the language of the header *)
(* ================================================================== *)

(** A C compiler accepts no parameter with a default argument, whatever
    was declared before. *)
Lemma default_argument_rejected_by_c (sc : scope) (f : fun_decl) :
  existsb (fun p => match p_default p with Some _ => true | None => false end)
          (f_params f) = true ->
  check_decl LangC sc (DFun f) = None.
Proof.
  intros H. unfold check_decl, params_ok.
  assert (F : forallb (param_ok LangC sc) (f_params f) = false).
  { induction (f_params f) as [| p ps IH]; [ discriminate H | ].
    cbn in H |- *. destruct (p_default p) eqn:D.
    - unfold param_ok. rewrite D. cbn. now rewrite andb_false_r.
    - cbn in H. rewrite (IH H). now rewrite andb_false_r. }
  rewrite F. cbn. now rewrite andb_false_r.
Qed.

(** C10. The [mode] parameter of [webxr_get_input_pose] is declared with
    the default argument [WEBXR_INPUT_POSE_GRIP], whose value is 0, the
    grip space.  A call that gives only [source] and [outPose] reaches the
    callee with that enumerator as its third argument; a call that gives
    all three is passed as written.  Under a C++ compiler the header is
    well-formed; under a C compiler it is not, and the declaration of
    [webxr_get_input_pose] alone is rejected in any scope. *)
Theorem get_input_pose_defaults_to_grip_cxx_only :
  find_param (f_params webxr_get_input_pose) "mode"
  = Some (Param "mode" (TName "WebXRInputPoseMode") (Some "WEBXR_INPUT_POSE_GRIP"))
  /\ enumerator_value (h_block webxr_h) "WEBXR_INPUT_POSE_GRIP" = Some 0
  /\ (forall (A : Type) (dflt : string -> A) (source outPose : A),
         complete_call dflt (f_params webxr_get_input_pose) [source; outPose]
         = Some [source; outPose; dflt "WEBXR_INPUT_POSE_GRIP"])
  /\ (forall (A : Type) (dflt : string -> A) (source outPose mode : A),
         complete_call dflt (f_params webxr_get_input_pose) [source; outPose; mode]
         = Some [source; outPose; mode])
  /\ well_formed LangCxx webxr_h = true
  /\ well_formed LangC webxr_h = false
  /\ (forall sc : scope, check_decl LangC sc (DFun webxr_get_input_pose) = None).
Proof.
  repeat split; try reflexivity.
  intros sc. apply default_argument_rejected_by_c. reflexivity.
Qed.

(* ================================================================== *)
(** * 11. Frame delivery and the session bracket *)
(* ================================================================== *)

Module FacadeFacts.
Import Facade.
Local Open Scope list_scope.

(** What [fill_views] produces: two slots, the first [viewCount] written,
    the rest untouched. *)
Lemma fill_views_shape (e : eye_views) :
  let (vs, n) := fill_views e in
  1 <= n <= 2
  /\ List.length vs = 2%nat
  /\ (forall k, (k < Z.to_nat n)%nat -> exists v, nth_error vs k = Some (Some v))
  /\ (forall k, (Z.to_nat n <= k < 2)%nat -> nth_error vs k = Some None).
Proof.
  destruct e as [v | l r]; cbn; (split; [ lia | ]); (split; [ reflexivity | ]);
    split; intros [| [| k]] Hk; cbn; try lia; try reflexivity; eauto.
Qed.

(** A frame callback in the output of a step was built by [fill_views]. *)
Lemma step_frame_filled (f : facade) (i : input) u fb t head vs n :
  In (CallFrame u fb t head vs n) (snd (step f i)) ->
  exists e, fill_views e = (vs, n).
Proof.
  destruct f as [p u0 bu fu]; destruct i; destruct p; cbn;
    try tauto;
    try (intros [H | []]; discriminate H).
  all: try (destruct host_has_xr, gl_capable; cbn;
            try tauto; intros [H | []]; discriminate H).
  all: try (destruct (fill_views eyes) as [vs0 n0] eqn:Fv; cbn;
            intros [H | []]; inversion H; subst; exists eyes; exact Fv).
  all: try (destruct bu; cbn; try tauto; intros [H | []]; discriminate H).
  all: try (destruct fu; cbn; try tauto; intros [H | []]; discriminate H).
Qed.

Lemma run_frame_filled (ins : list input) :
  forall (f : facade) u fb t head vs n,
    In (CallFrame u fb t head vs n) (run f ins) ->
    exists e, fill_views e = (vs, n).
Proof.
  induction ins as [| i r IH]; intros f u fb t head vs n H; cbn in H.
  - contradiction.
  - destruct (step f i) as [f' out] eqn:S.
    apply in_app_or in H. destruct H as [H | H].
    + apply (step_frame_filled f i u fb t head). now rewrite S.
    + exact (IH _ _ _ _ _ _ _ H).
Qed.

(** One step keeps the bracket discipline: its callbacks take the trace
    from the bracket state of the old phase to that of the new one. *)
Lemma step_bracketed (f : facade) (i : input) (rest : list callback_call) :
  bracketed (in_session (ph (fst (step f i)))) rest = true ->
  bracketed (in_session (ph f)) (snd (step f i) ++ rest) = true.
Proof.
  destruct f as [p u0 bu fu]; destruct i; destruct p; cbn; try tauto.
  all: try (destruct host_has_xr, gl_capable; cbn; tauto).
  all: try (destruct eyes; cbn; tauto).
  all: try (destruct bu; cbn; tauto).
  all: try (destruct fu; cbn; tauto).
Qed.

Lemma run_bracketed (ins : list input) :
  forall f, bracketed (in_session (ph f)) (run f ins) = true.
Proof.
  induction ins as [| i r IH]; intros f; cbn.
  - reflexivity.
  - pose proof (step_bracketed f i (run (fst (step f i)) r) (IH _)) as H.
    destruct (step f i) as [f' out]. exact H.
Qed.

(** In a bracketed trace a frame is either inside the session that was
    open at the start of the trace, or comes after a session start with no
    session end in between. *)
Lemma bracketed_frame_inside (pre : list callback_call) :
  forall (b : bool) (c : callback_call) (post : list callback_call),
    bracketed b (pre ++ c :: post) = true ->
    is_frame c = true ->
    (b = true /\ forallb not_session_end pre = true)
    \/ (exists p1 s p2,
           pre = p1 ++ s :: p2
           /\ is_session_start s = true
           /\ forallb not_session_end p2 = true).
Proof.
  induction pre as [| x pre IH]; intros b c post B Fc.
  - left. cbn in B. destruct c; try discriminate Fc. cbn in B.
    apply andb_prop in B. tauto.
  - cbn [app bracketed] in B.
    destruct (is_session_start x) eqn:Sx.
    + apply andb_prop in B. destruct B as [_ B].
      destruct (IH true c post B Fc) as [[_ N] | (p1 & s & p2 & E & Ss & N)].
      * right. exists [], x, pre. auto.
      * right. exists (x :: p1), s, p2. subst pre. auto.
    + destruct (is_session_end x) eqn:Ex.
      * apply andb_prop in B. destruct B as [_ B].
        destruct (IH false c post B Fc) as [[Bad _] | (p1 & s & p2 & E & Ss & N)].
        -- discriminate Bad.
        -- right. exists (x :: p1), s, p2. subst pre. auto.
      * assert (B' : bracketed b (pre ++ c :: post) = true).
        { destruct (is_frame x); [ apply andb_prop in B; tauto | exact B ]. }
        destruct (IH b c post B' Fc) as [[Hb N] | (p1 & s & p2 & E & Ss & N)].
        -- left. split; [ exact Hb | ]. cbn. unfold not_session_end at 1.
           now rewrite Ex.
        -- right. exists (x :: p1), s, p2. subst pre. auto.
Qed.

(** A suffix of a bracketed trace is bracketed from some state. *)
Lemma bracketed_suffix (pre : list callback_call) :
  forall (b : bool) (rest : list callback_call),
    bracketed b (pre ++ rest) = true ->
    exists b', bracketed b' rest = true.
Proof.
  induction pre as [| x pre IH]; intros b rest B.
  - now exists b.
  - cbn [app bracketed] in B.
    destruct (is_session_start x); [ apply andb_prop in B; destruct B as [_ B]; eauto | ].
    destruct (is_session_end x); [ apply andb_prop in B; destruct B as [_ B]; eauto | ].
    destruct (is_frame x); [ apply andb_prop in B; destruct B as [_ B]; eauto | eauto ].
Qed.

(** The claim of C5 as written fails on the declaration: the parameter
    spelled [WebXRView views[2]] has type pointer to [WebXRView], so the
    callback type fixes no storage for it, two entries or any other
    number. *)
Lemma frame_callback_type_fixes_no_storage :
  ~ type_fixes_storage webxr_frame_callback_func "views" 2.
Proof.
  intros [e H]. cbn in H. discriminate H.
Qed.

(** C5, amended.  The frame callback typedef spells [views] as an array
    of two [WebXRView] and has an [int viewCount] next to it; the bound is
    not part of the callback type, in which [views] is a pointer to
    [WebXRView] whatever bound is written.  On the facade modelled from the
    specification, every invocation of the frame callback, from any state
    and under any sequence of calls and host events, has
    [1 <= viewCount <= 2], two slots of storage, the slots below
    [viewCount] written and the slots from [viewCount] on left untouched. *)
Theorem frame_callback_view_count
    (f : facade) (ins : list input)
    (u : pointer) (fb t : Z) (head : WebXRRigidTransform)
    (vs : list (option WebXRView)) (n : Z) :
  In (CallFrame u fb t head vs n) (run f ins) ->
  find_param (cb_params webxr_frame_callback_func) "views"
  = Some (P "views" (TArray (TName "WebXRView") 2))
  /\ option_map (fun p => adjusted (p_type p))
                (find_param (cb_params webxr_frame_callback_func) "views")
     = Some (TPtr (TName "WebXRView"))
  /\ frame_callback_with_bound 2 = webxr_frame_callback_func
  /\ (forall k : nat,
         callback_type (frame_callback_with_bound k)
         = callback_type webxr_frame_callback_func)
  /\ find_param (cb_params webxr_frame_callback_func) "viewCount"
     = Some (P "viewCount" TInt)
  /\ 1 <= n <= 2
  /\ List.length vs = 2%nat
  /\ (forall k, (k < Z.to_nat n)%nat -> exists v, nth_error vs k = Some (Some v))
  /\ (forall k, (Z.to_nat n <= k < 2)%nat -> nth_error vs k = Some None).
Proof.
  intros H.
  destruct (run_frame_filled ins f u fb t head vs n H) as [e Fe].
  pose proof (fill_views_shape e) as S. rewrite Fe in S.
  repeat (split; [ reflexivity | ]).
  exact S.
Qed.

Lemma frame_callback_view_count_round_trip :
  (In (CallFrame 7 1 16 origin [Some eye; Some eye] 2)
      (run initial session_round_trip)
   /\ 1 <= 2 <= 2
   /\ nth_error [Some eye; Some eye] 1 = Some (Some eye))
  /\ (In (CallFrame 7 1 16 origin [Some eye; None] 1)
         (run initial inline_session)
      /\ 1 <= 1 <= 2
      /\ nth_error [Some eye; None] 1 = Some None).
Proof.
  assert (H2 : In (CallFrame 7 1 16 origin [Some eye; Some eye] 2)
                  (run initial session_round_trip)).
  { cbn. right. left. reflexivity. }
  assert (H1 : In (CallFrame 7 1 16 origin [Some eye; None] 1)
                  (run initial inline_session)).
  { cbn. right. left. reflexivity. }
  split.
  - split; [ exact H2 | ].
    destruct (frame_callback_view_count initial session_round_trip
                7 1 16 origin [Some eye; Some eye] 2 H2)
      as (_ & _ & _ & _ & _ & B & _).
    split; [ exact B | reflexivity ].
  - split; [ exact H1 | ].
    destruct (frame_callback_view_count initial inline_session
                7 1 16 origin [Some eye; None] 1 H1)
      as (_ & _ & _ & _ & _ & B & _ & _ & U).
    split; [ exact B | apply U; cbn; lia ].
Defined.

(** C8.  On the facade modelled from the specification, the callbacks
    invoked from the initial state under any sequence of calls and host
    events keep the session bracket: (a) every frame callback comes after a
    session-start callback with no session-end callback in between, and (b)
    between a session-end callback and any later frame callback there is a
    new session-start callback.  So no frame callback fires outside a
    start/end interval. *)
Theorem frames_bracketed_by_session (ins : list input) :
  bracketed false (run initial ins) = true
  /\ (forall pre c post,
         run initial ins = pre ++ c :: post ->
         is_frame c = true ->
         exists p1 s p2,
           pre = p1 ++ s :: p2
           /\ is_session_start s = true
           /\ forallb not_session_end p2 = true)
  /\ (forall pre e mid c post,
         run initial ins = pre ++ e :: mid ++ c :: post ->
         is_session_end e = true ->
         is_frame c = true ->
         existsb is_session_start mid = true).
Proof.
  pose proof (run_bracketed ins initial) as B. cbn [initial ph in_session] in B.
  split; [ exact B | split ].
  - intros pre c post E Fc. rewrite E in B.
    destruct (bracketed_frame_inside pre false c post B Fc) as [[Bad _] | R].
    + discriminate Bad.
    + exact R.
  - intros pre e mid c post E Ee Fc. rewrite E in B.
    destruct (bracketed_suffix pre false _ B) as [b' B'].
    cbn [bracketed] in B'.
    assert (Se : is_session_start e = false) by (destruct e; try discriminate Ee; reflexivity).
    rewrite Se, Ee in B'.
    apply andb_prop in B'. destruct B' as [_ B'].
    destruct (bracketed_frame_inside mid false c post B' Fc)
      as [[Bad _] | (p1 & s & p2 & M & Ss & _)].
    + discriminate Bad.
    + subst mid. rewrite existsb_app. cbn. rewrite Ss.
      now rewrite orb_true_r.
Qed.

Lemma frames_bracketed_by_session_round_trip :
  run initial session_round_trip
  = [ CallSessionStart 7 1;
      CallFrame 7 1 16 origin [Some eye; Some eye] 2;
      CallSessionEnd 7 1 ]
  /\ bracketed false (run initial session_round_trip) = true
  /\ exists p1 s p2,
       [ CallSessionStart 7 1 ] = p1 ++ s :: p2
       /\ is_session_start s = true
       /\ forallb not_session_end p2 = true.
Proof.
  destruct (frames_bracketed_by_session session_round_trip) as (B & A & _).
  split; [ reflexivity | split; [ exact B | ] ].
  apply (A [ CallSessionStart 7 1 ]
           (CallFrame 7 1 16 origin [Some eye; Some eye] 2)
           [ CallSessionEnd 7 1 ]); reflexivity.
Defined.











End FacadeFacts.

(* ================================================================== *)
(** * 12. Further properties of the declarations *)
(* ================================================================== *)

Section EnumFacts.
Local Open Scope list_scope.

Lemma enums_of_header :
  enums (h_block webxr_h)
  = [ WebXRError_decl; WebXRHandedness_decl; WebXRTargetRayMode_decl;
      WebXRSessionMode_decl; WebXRSessionFeatures_decl;
      WebXRInputPoseMode_decl ].
Proof. reflexivity. Qed.

(** What [enum_member] returns is a member with the value asked for. *)
Lemma enum_member_sound (e : enum_decl) (v : Z) (n : string) :
  enum_member e v = Some n -> In (n, v) (enum_values e).
Proof.
  unfold enum_member. intros H.
  destruct (find _ (enum_values e)) as [[n' v'] |] eqn:F; [ | discriminate H ].
  cbn in H. injection H as ->.
  apply find_some in F. destruct F as [I E]. cbn in E.
  apply Z.eqb_eq in E. now subst.
Qed.

(** X1. In every enumeration of the header the values are pairwise
    distinct, so the integer decodes to one member: [enum_member] returns
    [n] for [v] exactly when [n] is declared with value [v]. *)
Theorem enum_decoding_round_trip (e : enum_decl) (n : string) (v : Z) :
  In e (enums (h_block webxr_h)) ->
  (In (n, v) (enum_values e) <-> enum_member e v = Some n).
Proof.
  intros He. split; [ | apply enum_member_sound ].
  rewrite enums_of_header in He. cbn in He.
  in_cases He; cbn; intros H; in_cases H;
    match goal with
    | E : (_, _) = (_, _) |- _ => injection E as <- <-; reflexivity
    end.
Qed.

Lemma enum_decoding_round_trip_session_mode :
  In WebXRSessionMode_decl (enums (h_block webxr_h))
  /\ (In ("WEBXR_SESSION_MODE_IMMERSIVE_VR", 1) (enum_values WebXRSessionMode_decl)
      <-> enum_member WebXRSessionMode_decl 1
          = Some "WEBXR_SESSION_MODE_IMMERSIVE_VR").
Proof.
  assert (H : In WebXRSessionMode_decl (enums (h_block webxr_h))).
  { cbn. tauto. }
  split; [ exact H | ].
  exact (enum_decoding_round_trip WebXRSessionMode_decl
           "WEBXR_SESSION_MODE_IMMERSIVE_VR" 1 H).
Defined.

(** With an initialiser on every member the start value and the
    neighbours play no part. *)
Lemma enum_values_from_explicit (ms : list enumerator) :
  forallb has_initialiser ms = true ->
  forall k,
    enum_values_from k ms
    = map (fun m => (en_name m, match en_init m with Some z => z | None => 0 end)) ms.
Proof.
  induction ms as [| m r IH]; intros H k; [ reflexivity | ].
  cbn in H. apply andb_prop in H. destruct H as [Hm Hr].
  cbn. unfold has_initialiser in Hm.
  destruct (en_init m) as [z |]; [ | discriminate Hm ].
  now rewrite (IH Hr).
Qed.

(** X2. Every enumerator of the header is written with its value, so no
    value depends on the order of the members or on where counting starts:
    listing the members of any of the six enumerations in another order
    gives every member the same value. *)
Theorem enum_values_order_independent
    (e : enum_decl) (ms : list enumerator) (k : Z) :
  In e (enums (h_block webxr_h)) ->
  Permutation ms (e_members e) ->
  Permutation (enum_values_from k ms) (enum_values e).
Proof.
  intros He Hp.
  assert (X : forallb has_initialiser (e_members e) = true).
  { rewrite enums_of_header in He. cbn in He. in_cases He; reflexivity. }
  assert (Y : forallb has_initialiser ms = true).
  { apply forallb_forall. intros m Hm.
    apply (proj1 (forallb_forall _ _) X).
    now apply (Permutation_in _ Hp). }
  unfold enum_values.
  rewrite (enum_values_from_explicit ms Y k).
  rewrite (enum_values_from_explicit (e_members e) X 0).
  now apply Permutation_map.
Qed.

Lemma enum_values_order_independent_handedness :
  In WebXRHandedness_decl (enums (h_block webxr_h))
  /\ Permutation
       [ E "WEBXR_HANDEDNESS_RIGHT" 1; E "WEBXR_HANDEDNESS_NONE" (-1);
         E "WEBXR_HANDEDNESS_LEFT" 0 ]
       (e_members WebXRHandedness_decl)
  /\ Permutation
       (enum_values_from 7
          [ E "WEBXR_HANDEDNESS_RIGHT" 1; E "WEBXR_HANDEDNESS_NONE" (-1);
            E "WEBXR_HANDEDNESS_LEFT" 0 ])
       (enum_values WebXRHandedness_decl).
Proof.
  assert (H : In WebXRHandedness_decl (enums (h_block webxr_h))).
  { cbn. tauto. }
  assert (Q : Permutation
                [ E "WEBXR_HANDEDNESS_RIGHT" 1; E "WEBXR_HANDEDNESS_NONE" (-1);
                  E "WEBXR_HANDEDNESS_LEFT" 0 ]
                (e_members WebXRHandedness_decl)).
  { cbn. apply Permutation_sym.
    apply (Permutation_cons_app [E "WEBXR_HANDEDNESS_RIGHT" 1]
                                [E "WEBXR_HANDEDNESS_LEFT" 0]).
    apply perm_swap. }
  split; [ exact H | split; [ exact Q | ] ].
  exact (enum_values_order_independent WebXRHandedness_decl _ 7 H Q).
Defined.

End EnumFacts.

Section LayoutFacts.

Lemma align_up_divide (x a : Z) : 0 < a -> (a | x) -> align_up x a = x.
Proof.
  intros Ha [q ->]. now apply align_up_multiple.
Qed.

(** Closes the divisibility side conditions of [align_up_divide]. *)
Ltac divides :=
  repeat first
    [ apply Z.divide_refl
    | apply Z.divide_0_r
    | apply Z.divide_factor_r
    | apply Z.divide_add_r
    | apply Z.divide_mul_r ].

(** X3. [WebXRInputSource] is three words with no padding wherever an
    enumeration is laid out like an [int]: [id], [handedness] and
    [targetRayMode] sit at 0, one and two [int]s, and the struct is three
    [int]s wide (12 bytes for a four-byte [int]). *)
Theorem input_source_is_three_ints (pf : platform) (k : Z) :
  0 < alignof_int pf ->
  sizeof_int pf = k * alignof_int pf ->
  sizeof_enum pf = sizeof_int pf ->
  alignof_enum pf = alignof_int pf ->
  layout_of pf webxr_h "WebXRInputSource"
  = Some (StructLayout
            [ ("id", 0);
              ("handedness", sizeof_int pf);
              ("targetRayMode", 2 * sizeof_int pf) ]
            (3 * sizeof_int pf)
            (alignof_int pf)).
Proof.
  intros Ha Hs Hse Hae.
  destruct pf as [si ai sf af se ae sp ap]; cbn in Ha, Hs, Hse, Hae.
  subst se ae si.
  unfold layout_of, struct_layouts; cbn -[Z.mul Z.add Z.max align_up Z.of_nat].
  repeat rewrite Z.max_r by lia.
  rewrite (align_up_divide 0 ai) by (try assumption; divides).
  rewrite Z.add_0_l.
  rewrite (align_up_divide (k * ai) ai) by (try assumption; divides).
  replace (k * ai + k * ai) with (2 * (k * ai)) by lia.
  rewrite (align_up_divide (2 * (k * ai)) ai) by (try assumption; divides).
  replace (2 * (k * ai) + k * ai) with (3 * (k * ai)) by lia.
  rewrite (align_up_divide (3 * (k * ai)) ai) by (try assumption; divides).
  reflexivity.
Qed.

Lemma input_source_is_three_ints_wasm32 :
  0 < alignof_int wasm32
  /\ sizeof_int wasm32 = 1 * alignof_int wasm32
  /\ sizeof_enum wasm32 = sizeof_int wasm32
  /\ alignof_enum wasm32 = alignof_int wasm32
  /\ layout_of wasm32 webxr_h "WebXRInputSource"
     = Some (StructLayout
               [ ("id", 0); ("handedness", 4); ("targetRayMode", 8) ] 12 4).
Proof.
  repeat (split; [ reflexivity | ]).
  apply (input_source_is_three_ints wasm32 1); reflexivity.
Defined.

(** X4. None of the three structs holds a pointer, so their layout does
    not depend on the pointer width: two platforms that agree on [int],
    [float] and enumerations lay out every struct of the header alike,
    whatever their pointers. *)
Theorem struct_layouts_ignore_pointer_width (pf pf' : platform) :
  sizeof_int pf = sizeof_int pf' ->
  alignof_int pf = alignof_int pf' ->
  sizeof_float pf = sizeof_float pf' ->
  alignof_float pf = alignof_float pf' ->
  sizeof_enum pf = sizeof_enum pf' ->
  alignof_enum pf = alignof_enum pf' ->
  struct_layouts pf webxr_h = struct_layouts pf' webxr_h
  /\ exists l1 l2 l3,
       struct_layouts pf webxr_h
       = Some [ ("WebXRRigidTransform", l1); ("WebXRView", l2);
                ("WebXRInputSource", l3) ].
Proof.
  intros H1 H2 H3 H4 H5 H6.
  destruct pf as [si ai sf af se ae sp ap];
    destruct pf' as [si' ai' sf' af' se' ae' sp' ap'];
    cbn in H1, H2, H3, H4, H5, H6; subst.
  split; [ reflexivity | ].
  unfold struct_layouts; cbn -[Z.mul Z.add Z.max align_up Z.of_nat].
  unfold layout_struct; cbn -[Z.mul Z.add Z.max align_up Z.of_nat].
  do 3 eexists. reflexivity.
Qed.

Lemma struct_layouts_ignore_pointer_width_wasm32_lp64 :
  sizeof_ptr wasm32 <> sizeof_ptr lp64
  /\ struct_layouts wasm32 webxr_h = struct_layouts lp64 webxr_h.
Proof.
  split; [ discriminate | ].
  apply (struct_layouts_ignore_pointer_width wasm32 lp64); reflexivity.
Defined.

(** X5. [WebXRView] is packed wherever [float] and [int] share an
    alignment that divides both sizes: the pose takes 23 floats, the
    projection matrix the next 16, the viewport four ints after that, and
    the struct ends there with no padding inside or at the end. *)
Theorem view_has_no_padding (pf : platform) (a k j : Z) :
  0 < a ->
  alignof_float pf = a ->
  alignof_int pf = a ->
  sizeof_float pf = k * a ->
  sizeof_int pf = j * a ->
  layout_of pf webxr_h "WebXRView"
  = Some (StructLayout
            [ ("viewPose", 0);
              ("projectionMatrix", 23 * sizeof_float pf);
              ("viewport", 39 * sizeof_float pf) ]
            (39 * sizeof_float pf + 4 * sizeof_int pf)
            a).
Proof.
  intros Ha Haf Hai Hsf Hsi.
  destruct pf as [si ai sf af se ae sp ap]; cbn in Haf, Hai, Hsf, Hsi.
  subst af ai sf si.
  unfold layout_of, struct_layouts; cbn -[Z.mul Z.add Z.max align_up Z.of_nat].
  unfold layout_struct; cbn -[Z.mul Z.add Z.max align_up Z.of_nat].
  repeat rewrite Z.max_r by lia.
  rewrite (align_up_divide 0 a) by (try assumption; divides).
  replace (0 + Z.of_nat 16 * (k * a)) with (16 * (k * a)) by lia.
  replace (Z.of_nat 3 * (k * a)) with (3 * (k * a)) by lia.
  replace (Z.of_nat 4 * (k * a)) with (4 * (k * a)) by lia.
  replace (Z.of_nat 16 * (k * a)) with (16 * (k * a)) by lia.
  replace (Z.of_nat 4 * (j * a)) with (4 * (j * a)) by lia.
  rewrite (align_up_divide (16 * (k * a)) a) by (try assumption; divides).
  replace (16 * (k * a) + 3 * (k * a)) with (19 * (k * a)) by lia.
  rewrite (align_up_divide (19 * (k * a)) a) by (try assumption; divides).
  replace (19 * (k * a) + 4 * (k * a)) with (23 * (k * a)) by lia.
  rewrite (align_up_divide (23 * (k * a)) a) by (try assumption; divides).
  rewrite !Z.add_0_l.
  rewrite (align_up_divide (23 * (k * a)) a) by (try assumption; divides).
  replace (23 * (k * a) + 16 * (k * a)) with (39 * (k * a)) by lia.
  rewrite (align_up_divide (39 * (k * a)) a) by (try assumption; divides).
  rewrite (align_up_divide (39 * (k * a) + 4 * (j * a)) a)
    by (try assumption; divides).
  reflexivity.
Qed.

Lemma view_has_no_padding_wasm32 :
  0 < 4
  /\ alignof_float wasm32 = 4
  /\ alignof_int wasm32 = 4
  /\ sizeof_float wasm32 = 1 * 4
  /\ sizeof_int wasm32 = 1 * 4
  /\ layout_of wasm32 webxr_h "WebXRView"
     = Some (StructLayout
               [ ("viewPose", 0); ("projectionMatrix", 92); ("viewport", 156) ]
               172 4).
Proof.
  repeat (split; [ reflexivity | ]).
  apply (view_has_no_padding wasm32 4 1 1); reflexivity.
Defined.

End LayoutFacts.

Section SignatureFacts.
Local Open Scope list_scope.
Local Open Scope nat_scope.

Lemma functions_of_header :
  functions (h_block webxr_h)
  = [ webxr_init; webxr_set_session_blur_callback;
      webxr_set_session_focus_callback; webxr_is_session_supported;
      webxr_request_session; webxr_request_exit;
      webxr_set_projection_params; webxr_set_select_callback;
      webxr_set_select_start_callback; webxr_set_select_end_callback;
      webxr_get_input_sources; webxr_get_input_pose ].
Proof. reflexivity. Qed.

(** X6. No callback parameter is itself of enumeration type: the session
    mode, the error code and the supported flag reach the handlers as
    [int].  Parameters of enumeration type occur in exactly three
    functions, [webxr_is_session_supported], [webxr_request_session] and
    [webxr_get_input_pose].  The only other place enumerations cross the
    interface is inside [WebXRInputSource], whose fields [handedness] and
    [targetRayMode] are enumerations: it reaches the handlers of
    [webxr_input_callback_func] through [inputSource], and the caller
    through [webxr_get_input_sources] and [webxr_get_input_pose]. *)
Theorem callbacks_receive_enums_as_int :
  map f_name
      (filter (fun f => existsb (fun p => names_enum (h_block webxr_h) (p_type p))
                                (f_params f))
              (functions (h_block webxr_h)))
  = [ "webxr_is_session_supported"; "webxr_request_session";
      "webxr_get_input_pose" ]
  /\ Forall (fun c =>
               forallb (fun p => negb (names_enum (h_block webxr_h) (p_type p)))
                       (cb_params c) = true)
            (callbacks (h_block webxr_h))
  /\ option_map p_type (find_param (cb_params webxr_session_callback_func) "mode")
     = Some TInt
  /\ option_map p_type (find_param (cb_params webxr_error_callback_func) "error")
     = Some TInt
  /\ signature (cb_params webxr_session_supported_callback_func)
     = [ ("mode", TInt); ("supported", TInt) ]
  /\ map (fun s => (s_typedef s,
                    map fd_name
                        (filter (fun fd => names_enum (h_block webxr_h) (fd_type fd))
                                (s_fields s))))
         (structs (h_block webxr_h))
     = [ ("WebXRRigidTransform", []);
         ("WebXRView", []);
         ("WebXRInputSource", [ "handedness"; "targetRayMode" ]) ]
  /\ map (fun c => (cb_name c,
                    map p_name
                        (filter (fun p => carries_enum webxr_h (p_type p))
                                (cb_params c))))
         (filter (fun c => existsb (fun p => carries_enum webxr_h (p_type p))
                                   (cb_params c))
                 (callbacks (h_block webxr_h)))
     = [ ("webxr_input_callback_func", [ "inputSource" ]) ]
  /\ map (fun f => (f_name f,
                    map p_name
                        (filter (fun p => carries_enum webxr_h (p_type p))
                                (f_params f))))
         (filter (fun f => existsb (fun p => carries_enum webxr_h (p_type p))
                                   (f_params f))
                 (functions (h_block webxr_h)))
     = [ ("webxr_is_session_supported", [ "mode" ]);
         ("webxr_request_session",
          [ "mode"; "requiredFeatures"; "optionalFeatures" ]);
         ("webxr_get_input_sources", [ "outArray" ]);
         ("webxr_get_input_pose", [ "source"; "mode" ]) ].
Proof.
  split; [ reflexivity | ].
  split; [ | repeat split; reflexivity ].
  repeat (constructor; [ reflexivity | ]). constructor.
Qed.

(** [declare] is the scope [check_decl] returns when it accepts. *)
Lemma check_decl_declares (l : language) (sc sc' : scope) (d : decl) :
  check_decl l sc d = Some sc' -> sc' = declare sc d.
Proof.
  destruct d as [e | s | c | f]; cbn;
    match goal with
    | |- (if ?b then _ else _) = _ -> _ => destruct b
    end;
    intros H; try discriminate H; now injection H as <-.
Qed.

(** A compiler that reports nothing accepts the whole block. *)
Lemma rejected_nil_check_decls (l : language) (ds : list decl) :
  forall sc, rejected l sc ds = [] -> check_decls l sc ds = true.
Proof.
  induction ds as [| d r IH]; intros sc H; [ reflexivity | ].
  cbn in H |- *.
  destruct (check_decl l sc d) as [sc' |] eqn:C; [ | discriminate H ].
  cbn in H. rewrite (check_decl_declares _ _ _ _ C). now apply IH.
Qed.

(** In C a type name that is only an enumeration's tag is not in scope
    as a type, so a declaration that spells one is rejected whatever else
    it says. *)
Lemma bare_enum_tag_rejected_by_c (sc : scope) (t : ctype) :
  (forall n, mem n (sc_typedefs sc) = true ->
             existsb (fun e => String.eqb (e_tag e) n) (enums (h_block webxr_h))
             = false) ->
  names_enum (h_block webxr_h) t = true ->
  type_ok LangC sc t = false.
Proof.
  intros Hsc.
  induction t as [| | | n | e IH | e IH k]; cbn [names_enum type_ok]; intros H;
    try discriminate H.
  - unfold type_name_ok. rewrite orb_false_r.
    destruct (mem n (sc_typedefs sc)) eqn:M; [ | reflexivity ].
    rewrite (Hsc n M) in H. discriminate H.
  - exact (IH H).
  - now rewrite (IH H).
Qed.

(** X7. The brace block that holds the declarations keeps its ["C"]
    linkage prefix only under C++; under C the prefix is preprocessed away,
    the brace stands alone and the header is rejected there.  The
    declarations inside are not C either: checked one by one by C's name
    lookup, each in the scope of the declarations above it, the invalid
    ones are exactly the four that spell an enumeration by its bare tag,
    the struct [WebXRInputSource] and the functions
    [webxr_is_session_supported], [webxr_request_session] and
    [webxr_get_input_pose]; with the default argument taken out, the last
    is still one of them.  Under C++ every declaration is accepted. *)
Theorem declarations_rejected_by_c :
  tu_linkage (preprocess LangCxx webxr_h) = Some "C"
  /\ tu_linkage (preprocess LangC webxr_h) = None
  /\ linkage_ok LangC (tu_linkage (preprocess LangC webxr_h)) = false
  /\ well_formed LangC webxr_h = false
  /\ rejected LangC empty_scope (h_block webxr_h)
     = [ "WebXRInputSource"; "webxr_is_session_supported";
         "webxr_request_session"; "webxr_get_input_pose" ]
  /\ rejected LangC empty_scope (h_block webxr_h)
     = map decl_name
           (filter (uses_bare_enum (h_block webxr_h)) (h_block webxr_h))
  /\ map (fun d => (decl_name d,
                    filter (names_enum (h_block webxr_h)) (spelled_types d)))
         (filter (uses_bare_enum (h_block webxr_h)) (h_block webxr_h))
     = [ ("WebXRInputSource",
          [ TName "WebXRHandedness"; TName "WebXRTargetRayMode" ]);
         ("webxr_is_session_supported", [ TName "WebXRSessionMode" ]);
         ("webxr_request_session",
          [ TName "WebXRSessionMode"; TName "WebXRSessionFeatures";
            TName "WebXRSessionFeatures" ]);
         ("webxr_get_input_pose", [ TName "WebXRInputPoseMode" ]) ]
  /\ (forall sc : scope,
         check_decl LangC sc
           (DFun (FunDecl (f_name webxr_get_input_pose)
                          (f_ret webxr_get_input_pose)
                          (map (fun p => P (p_name p) (p_type p))
                               (f_params webxr_get_input_pose))))
         = None
         \/ mem "WebXRInputPoseMode" (sc_typedefs sc) = true)
  /\ rejected LangCxx empty_scope (h_block webxr_h) = []
  /\ check_decls LangCxx empty_scope (h_block webxr_h) = true.
Proof.
  repeat (split; [ reflexivity | ]).
  assert (R : rejected LangCxx empty_scope (h_block webxr_h) = []) by reflexivity.
  split; [ | split; [ exact R | exact (rejected_nil_check_decls LangCxx _ _ R) ] ].
  intros sc.
  destruct (mem "WebXRInputPoseMode" (sc_typedefs sc)) eqn:M; [ now right | left ].
  cbn. unfold params_ok. cbn. unfold param_ok at 3. cbn.
  unfold type_name_ok. rewrite M. cbn.
  now rewrite !andb_false_r.
Qed.

(** When the defaults are trailing, what decides a call is how many
    arguments it writes. *)
Lemma all_defaults_required (ps : list param) :
  forallb (fun q => match p_default q with Some _ => true | None => false end) ps
  = true ->
  required_args ps = 0 /\ defaults_trailing ps = true.
Proof.
  induction ps as [| p r IH]; intros H; [ split; reflexivity | ].
  cbn in H. apply andb_prop in H. destruct H as [Hp Hr].
  destruct (IH Hr) as [R T].
  unfold required_args in *. cbn. unfold has_default.
  destruct (p_default p); [ | discriminate Hp ].
  cbn. split; [ exact R | exact Hr ].
Qed.

Lemma complete_call_arity {A : Type} (dflt : string -> A) (ps : list param) :
  defaults_trailing ps = true ->
  forall args : list A,
    (exists l, complete_call dflt ps args = Some l)
    <-> required_args ps <= List.length args <= List.length ps.
Proof.
  induction ps as [| p r IH]; intros T args.
  - destruct args as [| a args]; cbn.
    + split; [ intros _; lia | intros _; now exists [] ].
    + split; [ intros [l H]; discriminate H | lia ].
  - assert (Tr : defaults_trailing r = true).
    { cbn in T. destruct (p_default p); [ | exact T ].
      now apply all_defaults_required. }
    assert (Rq : required_args (p :: r)
                 = (if has_default p then 0 else 1) + required_args r).
    { unfold required_args. cbn. now destruct (has_default p). }
    assert (Z0 : has_default p = true -> required_args r = 0).
    { unfold has_default. intros Hd. cbn in T.
      destruct (p_default p); [ | discriminate Hd ].
      now apply all_defaults_required. }
    rewrite Rq. specialize (IH Tr).
    destruct args as [| a args]; cbn [complete_call List.length].
    + unfold has_default in *. destruct (p_default p) as [d |].
      * specialize (Z0 eq_refl).
        split.
        -- intros _. lia.
        -- intros _. destruct (proj2 (IH []) ltac:(cbn; lia)) as [l Hl].
           rewrite Hl. cbn. eauto.
      * split; [ intros [l H]; discriminate H | lia ].
    + split.
      * intros [l H].
        destruct (complete_call dflt r args) as [l' |] eqn:C; [ | discriminate H ].
        pose proof (proj1 (IH args) (ex_intro _ l' C)) as B.
        destruct (has_default p); lia.
      * intros B.
        assert (B' : required_args r <= List.length args <= List.length r).
        { destruct (has_default p) eqn:Hd; [ rewrite (Z0 eq_refl) | ]; lia. }
        destruct (proj2 (IH args) B') as [l Hl]. rewrite Hl. cbn. eauto.
Qed.

(** The callee receives the caller's arguments first and unchanged, and
    one argument per parameter. *)
Lemma complete_call_prefix {A : Type} (dflt : string -> A) (ps : list param) :
  forall (args l : list A),
    complete_call dflt ps args = Some l ->
    List.length l = List.length ps /\ firstn (List.length args) l = args.
Proof.
  induction ps as [| p r IH]; intros args l H.
  - destruct args; [ | discriminate H ]. injection H as <-. split; reflexivity.
  - destruct args as [| a args]; cbn in H.
    + destruct (p_default p); [ | discriminate H ].
      destruct (complete_call dflt r []) as [l' |] eqn:C; [ | discriminate H ].
      injection H as <-. destruct (IH [] l' C) as [L _].
      cbn. split; [ now rewrite L | reflexivity ].
    + destruct (complete_call dflt r args) as [l' |] eqn:C; [ | discriminate H ].
      injection H as <-. destruct (IH args l' C) as [L F].
      cbn. split; [ now rewrite L | now rewrite F ].
Qed.

(** X8. How many arguments a call may write.  Binding the arguments of a
    call to the parameters of a header function, by position and with
    trailing defaults, succeeds exactly when the call writes one argument
    per parameter, or two or three for [webxr_get_input_pose]; a call with
    any other count is rejected before any type is looked at (whether the
    arguments fit the parameter types is a further check, not made here).
    Binding gives one argument per parameter and keeps the written
    arguments, in order, as the leading ones: a default is only ever
    appended. *)
Theorem call_arity {A : Type} (dflt : string -> A) (f : fun_decl) (args : list A) :
  In f (functions (h_block webxr_h)) ->
  ((exists l, complete_call dflt (f_params f) args = Some l)
   <-> (if String.eqb (f_name f) "webxr_get_input_pose"
        then 2 <= List.length args <= 3
        else List.length args = List.length (f_params f)))
  /\ (forall l, complete_call dflt (f_params f) args = Some l ->
                List.length l = List.length (f_params f)
                /\ firstn (List.length args) l = args).
Proof.
  intros Hf. split; [ | intros l; apply complete_call_prefix ].
  assert (T : defaults_trailing (f_params f) = true).
  { rewrite functions_of_header in Hf. cbn in Hf. in_cases Hf; reflexivity. }
  rewrite (complete_call_arity dflt (f_params f) T args).
  rewrite functions_of_header in Hf. cbn in Hf.
  in_cases Hf; cbn; lia.
Qed.

Lemma call_arity_request_exit :
  In webxr_request_exit (functions (h_block webxr_h))
  /\ (exists l : list Z, complete_call (fun _ => 0%Z) (f_params webxr_request_exit) [] = Some l)
  /\ ~ (exists l : list Z,
          complete_call (fun _ => 0%Z) (f_params webxr_request_exit) [5%Z] = Some l).
Proof.
  assert (H : In webxr_request_exit (functions (h_block webxr_h))).
  { cbn. tauto. }
  split; [ exact H | split ].
  - apply (proj1 (call_arity (fun _ => 0%Z) webxr_request_exit [] H)).
    reflexivity.
  - intros X.
    apply (proj1 (call_arity (fun _ => 0%Z) webxr_request_exit [5%Z] H)) in X.
    discriminate X.
Defined.

End SignatureFacts.
